(** * A shallow embedding of scripts/generate_app_icon.py

    The script renders a sun icon once at [MASTER_SIZE] with Pillow and saves
    it, resized, at every size of [SIZES] under [OUT_DIR].

    Modelling choices:
    - Python floats are kept abstract behind the class [FloatOps]: every
      float operation of the script ([float(n)], the literals, [*], [+], [-],
      [int()], [math.radians], [math.cos], [math.sin]) is an operation of the
      class, so the statements hold for any IEEE implementation.
    - Pillow images are mutable objects: a heap ([gmap nat canvas]) maps each
      image object to its current content.  A [canvas] records the content
      symbolically: a blank canvas, a canvas painted with one more drawing
      operation, or a resampled canvas.
    - The process runs in a state and exception monad [M] that reads a
      [world] (command line, environment, the script's resolved path, the
      outcome of importing Pillow, the file-system failures) and appends the
      observable I/O to a trace. *)

From Stdlib Require Import ZArith QArith.
From stdpp Require Import base gmap strings pretty list.

Open Scope Z_scope.

(** ** Python floats *)

Class FloatOps := {
  flt : Type;
  flt_of_int : Z -> flt;          (* float(n), also the implicit int->float promotion *)
  flt_lit : Z -> Z -> flt;        (* the decimal literal m * 10^-k, e.g. 0.18 = flt_lit 18 2 *)
  int_truediv : Z -> Z -> flt;    (* a / b on two ints *)
  flt_add : flt -> flt -> flt;
  flt_sub : flt -> flt -> flt;
  flt_mul : flt -> flt -> flt;
  flt_trunc : flt -> Z;           (* int(x) *)
  flt_ltb : flt -> flt -> bool;   (* x < y *)
  math_radians : flt -> flt;
  math_cos : flt -> flt;
  math_sin : flt -> flt
}.

(** Paths are lists of components, as pathlib keeps them. *)
Definition path := list string.

Definition parent (p : path) : path := removelast p.

(** Exceptions the script can meet. *)
Inductive exn :=
| ImportError (name : string)
| ModuleNotFoundError (name : string)
| OSError (errno : Z) (p : path)
| SystemExit (code : Z)
| ValueError (msg : string).

(** [except ImportError] also catches its subclass [ModuleNotFoundError]. *)
Definition is_ImportError (e : exn) : bool :=
  match e with
  | ImportError _ | ModuleNotFoundError _ => true
  | _ => false
  end.

(** The outcome of a computation: a value or a raised exception. *)
Inductive res (A : Type) :=
| Ok (a : A)
| Exc (e : exn).
Arguments Ok {A} a.
Arguments Exc {A} e.

Section Model.
Context {FO : FloatOps}.

(** ** Pillow: images *)

(** A Python number argument: an int or a float. *)
Inductive pynum :=
| PInt (z : Z)
| PFloat (f : flt).

(** [a < b] on two Python numbers; an int met with a float is compared as
    [float(n)]. *)
Definition pynum_ltb (a b : pynum) : bool :=
  match a, b with
  | PInt x, PInt y => Z.ltb x y
  | PInt x, PFloat y => flt_ltb (flt_of_int x) y
  | PFloat x, PInt y => flt_ltb x (flt_of_int y)
  | PFloat x, PFloat y => flt_ltb x y
  end.

Inductive color :=
| RGB (r g b : Z)
| RGBA (r g b a : Z).

Inductive draw_op :=
| RoundedRectangle (xy : list pynum) (radius : Z) (fill : color)
| Ellipse (xy : list pynum) (fill outline : color) (width : Z)
| Polygon (xy : list pynum) (fill : color).

Inductive resample := NEAREST | BILINEAR | BICUBIC | LANCZOS.

Inductive canvas :=
| Blank (mode : string) (w h : Z) (bg : color)
| Painted (base : canvas) (op : draw_op)
| Resized (filter : resample) (w h : Z) (src : canvas).

(** [img.size] *)
Fixpoint canvas_size (c : canvas) : Z * Z :=
  match c with
  | Blank _ w h _ => (w, h)
  | Painted b _ => canvas_size b
  | Resized _ w h _ => (w, h)
  end.

(** ** The process: world, state, trace *)

Inductive event :=
| EMkdir (p : path) (parents exist_ok : bool)
| ERead (p : path)
| EWrite (p : path) (format : string) (contents : canvas)
| EStdout (line : string)
| EStderr (line : string).

Record world := {
  w_argv : list string;
  w_environ : list (string * string);
  w_file : path;                    (* Path(__file__).resolve() *)
  w_import_pil : option exn;        (* outcome of `from PIL import Image, ImageDraw` *)
  w_mkdir : path -> option exn;     (* failure of mkdir at a path, if any *)
  w_save : path -> option exn       (* failure of writing a file, if any *)
}.

Record state := {
  st_heap : gmap nat canvas;        (* live Pillow image objects *)
  st_next : nat;                    (* next fresh object *)
  st_trace : list event
}.

Definition M (A : Type) : Type := world -> state -> res A * state.

Definition ret {A} (a : A) : M A := fun _ st => (Ok a, st).

Definition bind {A B} (m : M A) (k : A -> M B) : M B :=
  fun w st =>
    match m w st with
    | (Ok a, st') => k a w st'
    | (Exc e, st') => (Exc e, st')
    end.

Definition raise {A} (e : exn) : M A := fun _ st => (Exc e, st).

(** [try: m except ...: h] *)
Definition try_except {A} (m : M A) (h : exn -> M A) : M A :=
  fun w st =>
    match m w st with
    | (Exc e, st') => h e w st'
    | r => r
    end.

End Model.

Notation "x <- m ;; k" := (bind m (fun x => k))
  (at level 99, m at level 98, right associativity).
Notation "m ;;; k" := (bind m (fun _ => k))
  (at level 99, right associativity).

Section Program.
Context {FO : FloatOps}.

(** ** Runtime primitives *)

Definition get_world : M world := fun w st => (Ok w, st).

Definition emit (e : event) : M unit :=
  fun _ st => (Ok tt, {| st_heap := st_heap st; st_next := st_next st;
                         st_trace := st_trace st ++ [e] |}).

Definition alloc (c : canvas) : M nat :=
  fun _ st => (Ok (st_next st),
               {| st_heap := <[st_next st := c]> (st_heap st);
                  st_next := S (st_next st); st_trace := st_trace st |}).

Definition load (l : nat) : M canvas :=
  fun _ st =>
    match st_heap st !! l with
    | Some c => (Ok c, st)
    | None => (Exc (ValueError "Operation on closed image"), st)
    end.

Definition store (l : nat) (c : canvas) : M unit :=
  fun _ st => (Ok tt, {| st_heap := <[l := c]> (st_heap st);
                         st_next := st_next st; st_trace := st_trace st |}).

(** [for x in xs: body(x)] *)
Fixpoint for_ {A} (xs : list A) (body : A -> M unit) : M unit :=
  match xs with
  | [] => ret tt
  | x :: xs' => body x ;;; for_ xs' body
  end.

(** [range(n)] *)
Definition range (n : Z) : list Z := map Z.of_nat (seq 0 (Z.to_nat n)).

Definition print_stdout (s : string) : M unit := emit (EStdout s).
Definition print_stderr (s : string) : M unit := emit (EStderr s).
Definition sys_exit {A} (code : Z) : M A := raise (SystemExit code).

(** [from PIL import Image, ImageDraw] *)
Definition import_PIL : M unit :=
  w <- get_world ;;
  match w_import_pil w with
  | Some e => raise e
  | None => ret tt
  end.

(** [p.mkdir(parents=..., exist_ok=...)] *)
Definition Path_mkdir (p : path) (parents exist_ok : bool) : M unit :=
  w <- get_world ;;
  match w_mkdir w p with
  | Some e => raise e
  | None => emit (EMkdir p parents exist_ok)
  end.

(** ** Pillow API *)

(** [Image.new(mode, (w, h), color)]: Pillow's [_check_size] rejects a
    negative width or height. *)
Definition Image_new (mode : string) (w h : Z) (bg : color) : M nat :=
  if (w <? 0) || (h <? 0) then raise (ValueError "Width and height must be >= 0")
  else alloc (Blank mode w h bg).

(** [ImageDraw.Draw(img)]: a drawing handle on the image object. *)
Definition ImageDraw_Draw (img : nat) : M nat := ret img.

(** Every drawing call paints onto the image in place. *)
Definition draw_apply (draw : nat) (op : draw_op) : M unit :=
  c <- load draw ;; store draw (Painted c op).

(** [draw.rounded_rectangle(xy, radius, fill)]: Pillow unpacks
    [x0, y0, x1, y1 = xy] and rejects a box with [x1 < x0] or [y1 < y0]
    before painting; any other shape of [xy] fails to unpack. *)
Definition ImageDraw_rounded_rectangle (draw : nat) (xy : list pynum)
  (radius : Z) (fill : color) : M unit :=
  match xy with
  | [x0; y0; x1; y1] =>
      if pynum_ltb x1 x0 then raise (ValueError "x1 must be greater than or equal to x0")
      else if pynum_ltb y1 y0 then raise (ValueError "y1 must be greater than or equal to y0")
      else draw_apply draw (RoundedRectangle xy radius fill)
  | _ => raise (ValueError "wrong number of values to unpack (expected 4)")
  end.

(** [draw.ellipse(xy, fill, outline, width)].  Pillow's core also rejects a
    box with [x1 < x0] or [y1 < y0]; that check is not modelled, the floats
    being abstract.  In [draw_icon] the box is [cx - r, cy - r, cx + r, cy + r]
    with [r = 0.26 size], reached only once the rounded rectangle has accepted
    [size >= 1], where the check passes. *)
Definition ImageDraw_ellipse (draw : nat) (xy : list pynum)
  (fill outline : color) (width : Z) : M unit :=
  draw_apply draw (Ellipse xy fill outline width).

Definition ImageDraw_polygon (draw : nat) (xy : list pynum) (fill : color) : M unit :=
  draw_apply draw (Polygon xy fill).

(** [img.resize((w, h), filter)] returns a new image; [img] is untouched. *)
Definition Image_resize (img : nat) (w h : Z) (filter : resample) : M nat :=
  c <- load img ;; alloc (Resized filter w h c).

(** [img.save(p, fmt)] *)
Definition Image_save (img : nat) (p : path) (fmt : string) : M unit :=
  c <- load img ;;
  w <- get_world ;;
  match w_save w p with
  | Some e => raise e
  | None => emit (EWrite p fmt c)
  end.

(** ** The script *)

(** [Path(__file__).resolve().parent.parent / "SunlightTracker/Assets.xcassets/AppIcon.appiconset"] *)
Definition OUT_DIR_of (file : path) : path :=
  parent (parent file) ++ ["SunlightTracker"; "Assets.xcassets"; "AppIcon.appiconset"].

Definition SIZES : list Z := [16; 32; 64; 128; 256; 512; 1024].
Definition MASTER_SIZE : Z := 1024.

Definition draw_icon (size : Z) : M nat :=
  let scale := int_truediv size MASTER_SIZE in
  let radius := Z.max 2 (flt_trunc (flt_mul (flt_of_int size) (flt_lit 18 2))) in
  img <- Image_new "RGBA" size size (RGBA 0 0 0 0) ;;
  draw <- ImageDraw_Draw img ;;
  ImageDraw_rounded_rectangle draw [PInt 0; PInt 0; PInt (size - 1); PInt (size - 1)]
    radius (RGBA 220 120 50 255) ;;;
  let cx := flt_mul (flt_of_int size) (flt_lit 5 1) in
  let cy := flt_mul (flt_of_int size) (flt_lit 48 2) in
  let r_sun := flt_mul (flt_of_int size) (flt_lit 26 2) in
  ImageDraw_ellipse draw
    [PFloat (flt_sub cx r_sun); PFloat (flt_sub cy r_sun);
     PFloat (flt_add cx r_sun); PFloat (flt_add cy r_sun)]
    (RGB 255 248 220) (RGB 255 220 150)
    (Z.max 1 (flt_trunc (flt_mul (flt_of_int 2) scale))) ;;;
  let ray_len := flt_mul (flt_of_int size) (flt_lit 4 1) in
  let ray_width_deg := 20 in
  for_ (range 8) (fun i =>
    let angle_deg := i * 45 in
    let angle_rad_lo := math_radians (flt_of_int (angle_deg - ray_width_deg)) in
    let angle_rad_hi := math_radians (flt_of_int (angle_deg + ray_width_deg)) in
    let x1 := flt_add cx (flt_mul ray_len (math_cos angle_rad_lo)) in
    let y1 := flt_sub cy (flt_mul ray_len (math_sin angle_rad_lo)) in
    let x2 := flt_add cx (flt_mul ray_len (math_cos angle_rad_hi)) in
    let y2 := flt_sub cy (flt_mul ray_len (math_sin angle_rad_hi)) in
    ImageDraw_polygon draw [PFloat cx; PFloat cy; PFloat x1; PFloat y1; PFloat x2; PFloat y2]
      (RGB 255 230 160)) ;;;
  ret img.

(** [f"icon_{s}.png"] *)
Definition icon_name (s : Z) : string := "icon_" +:+ pretty s +:+ ".png".

(** The body of the loop of [main] for one size [s]. *)
Definition main_step (OUT_DIR : path) (master : nat) (s : Z) : M unit :=
  out <- (if Z.eqb s MASTER_SIZE then ret master
          else Image_resize master s s LANCZOS) ;;
  Image_save out (OUT_DIR ++ [icon_name s]) "PNG" ;;;
  print_stdout ("Wrote " +:+ icon_name s).

Definition main (OUT_DIR : path) : M unit :=
  Path_mkdir OUT_DIR true true ;;;
  master <- draw_icon MASTER_SIZE ;;
  for_ SIZES (main_step OUT_DIR master) ;;;
  print_stdout "Done. Update Contents.json with filenames if not already set.".

(** Running the file as a script: the guarded import, the module-level
    constants, then [if __name__ == "__main__": main()]. *)
Definition script : M unit :=
  try_except import_PIL (fun e =>
    if is_ImportError e then
      print_stderr "Install Pillow: pip install Pillow" ;;; sys_exit 1
    else raise e) ;;;
  w <- get_world ;;
  let OUT_DIR := OUT_DIR_of (w_file w) in
  main OUT_DIR.

(** The exit status of the interpreter: 0 on normal completion, the code of
    [SystemExit], and 1 after the traceback of any other uncaught exception. *)
Definition exit_status {A} (r : res A) : Z :=
  match r with
  | Ok _ => 0
  | Exc (SystemExit c) => c
  | Exc _ => 1
  end.

Definition run (w : world) (st : state) : res unit * state := script w st.

(** The whole file executed as a module named [name]: the guarded import,
    the module-level constants, then [if __name__ == "__main__": main()].
    Run as a script, [name] is "__main__"; imported, it is the module name. *)
Definition module_exec (name : string) : M unit :=
  try_except import_PIL (fun e =>
    if is_ImportError e then
      print_stderr "Install Pillow: pip install Pillow" ;;; sys_exit 1
    else raise e) ;;;
  w <- get_world ;;
  let OUT_DIR := OUT_DIR_of (w_file w) in
  if String.eqb name "__main__" then main OUT_DIR else ret tt.

(** [python3 generate_app_icon.py]: the interpreter runs the file as a
    script; an uncaught exception other than [SystemExit] makes it print a
    traceback to stderr (one event stands for the whole traceback), while
    [SystemExit] with an int code exits silently. *)
Definition python_main : M unit := fun w st =>
  match script w st with
  | (Exc (SystemExit c), st') => (Exc (SystemExit c), st')
  | (Exc e, st') =>
      (Exc e, {| st_heap := st_heap st'; st_next := st_next st';
                 st_trace := st_trace st' ++ [EStderr "Traceback (most recent call last):"] |})
  | r => r
  end.

(** ** Pure readings used in the statements *)



(** The content [draw_icon size] leaves in the image it returns, read off the
    body of [draw_icon] call by call. *)
Definition draw_icon_canvas (size : Z) : canvas :=
  let scale := int_truediv size MASTER_SIZE in
  let radius := Z.max 2 (flt_trunc (flt_mul (flt_of_int size) (flt_lit 18 2))) in
  let c0 := Blank "RGBA" size size (RGBA 0 0 0 0) in
  let c1 := Painted c0 (RoundedRectangle [PInt 0; PInt 0; PInt (size - 1); PInt (size - 1)]
                          radius (RGBA 220 120 50 255)) in
  let cx := flt_mul (flt_of_int size) (flt_lit 5 1) in
  let cy := flt_mul (flt_of_int size) (flt_lit 48 2) in
  let r_sun := flt_mul (flt_of_int size) (flt_lit 26 2) in
  let c2 := Painted c1 (Ellipse
              [PFloat (flt_sub cx r_sun); PFloat (flt_sub cy r_sun);
               PFloat (flt_add cx r_sun); PFloat (flt_add cy r_sun)]
              (RGB 255 248 220) (RGB 255 220 150)
              (Z.max 1 (flt_trunc (flt_mul (flt_of_int 2) scale)))) in
  let ray_len := flt_mul (flt_of_int size) (flt_lit 4 1) in
  let ray_width_deg := 20 in
  fold_left (fun c i =>
    let angle_deg := i * 45 in
    let angle_rad_lo := math_radians (flt_of_int (angle_deg - ray_width_deg)) in
    let angle_rad_hi := math_radians (flt_of_int (angle_deg + ray_width_deg)) in
    let x1 := flt_add cx (flt_mul ray_len (math_cos angle_rad_lo)) in
    let y1 := flt_sub cy (flt_mul ray_len (math_sin angle_rad_lo)) in
    let x2 := flt_add cx (flt_mul ray_len (math_cos angle_rad_hi)) in
    let y2 := flt_sub cy (flt_mul ray_len (math_sin angle_rad_hi)) in
    Painted c (Polygon [PFloat cx; PFloat cy; PFloat x1; PFloat y1; PFloat x2; PFloat y2]
                 (RGB 255 230 160))) (range 8) c2.

(** What one iteration of [main]'s loop saves for size [s] from the master
    content [c]. *)
Definition output_canvas (c : canvas) (s : Z) : canvas :=
  if Z.eqb s MASTER_SIZE then c else Resized LANCZOS s s c.

(** The events of [main]'s loop over [sizes]. *)
Definition loop_trace (OUT_DIR : path) (c : canvas) (sizes : list Z) : list event :=
  concat (map (fun s => [EWrite (OUT_DIR ++ [icon_name s]) "PNG" (output_canvas c s);
                         EStdout ("Wrote " +:+ icon_name s)]) sizes).

(** The number of objects the loop allocates: one per resized size. *)
Definition resized_count (sizes : list Z) : nat :=
  length (List.filter (fun s => negb (Z.eqb s MASTER_SIZE)) sizes).

(** The paths the trace writes, in order. *)
Definition written_paths (tr : list event) : list path :=
  omap (fun e => match e with EWrite p _ _ => Some p | _ => None end) tr.

(** The (path, content) pairs the trace writes, in order. *)
Definition writes (tr : list event) : list (path * canvas) :=
  omap (fun e => match e with EWrite p _ c => Some (p, c) | _ => None end) tr.

End Program.

(** A world where the import and every file-system call of a run succeed. *)
Definition succeeds {FO : FloatOps} (w : world) : Prop :=
  w_import_pil w = None /\
  w_mkdir w (OUT_DIR_of (w_file w)) = None /\
  Forall (fun s => w_save w (OUT_DIR_of (w_file w) ++ [icon_name s]) = None) SIZES.

(** The events a run appends to the trace. *)
Definition new_events {FO : FloatOps} (st st' : state) : list event :=
  drop (length (st_trace st)) (st_trace st').

(** The parts of the world a run may depend on: all but the command line
    and the environment. *)
Definition same_io (w1 w2 : world) : Prop :=
  w_file w1 = w_file w2 /\ w_import_pil w1 = w_import_pil w2 /\
  w_mkdir w1 = w_mkdir w2 /\ w_save w1 = w_save w2.

(** A computation whose outcome depends on the world only through [same_io]. *)
Definition respects {FO : FloatOps} {A} (m : M A) : Prop :=
  forall w1 w2 st, same_io w1 w2 -> m w1 st = m w2 st.


(** An event a run may cause with [OUT_DIR] as output directory: no read,
    mkdir of [OUT_DIR] only, PNG writes only to [OUT_DIR/icon_{s}.png] for a
    configured size [s]. *)
Definition event_in_out_dir {FO : FloatOps} (D : path) (e : event) : Prop :=
  match e with
  | ERead _ => False
  | EMkdir p _ _ => p = D
  | EWrite p fmt _ => fmt = "PNG" /\ exists s, In s SIZES /\ p = D ++ [icon_name s]
  | EStdout _ | EStderr _ => True
  end.

(** *** The icon as the spec describes it *)

Section SpecIcon.
Context {FO : FloatOps}.





End SpecIcon.

(** Every line "Wrote n" of a trace comes right after the write of
    [D/n]. *)
Definition reports_follow_writes {FO : FloatOps} (D : path) (tr : list event) : Prop :=
  forall tr1 n tr2, tr = tr1 ++ EStdout ("Wrote " +:+ n) :: tr2 ->
    exists fmt c tr0, tr1 = tr0 ++ [EWrite (D ++ [n]) fmt c].

(** ** A concrete reading of the floats

    Float expressions kept as syntax; [int()] reads the expression as an exact
    rational (no rounding) and truncates it.  Only used to run the model on
    concrete worlds. *)
Inductive fexpr :=
| FOfInt (z : Z)
| FLit (m k : Z)
| FTrueDiv (a b : Z)
| FAdd (a b : fexpr)
| FSub (a b : fexpr)
| FMul (a b : fexpr)
| FRadians (a : fexpr)
| FCos (a : fexpr)
| FSin (a : fexpr).

Fixpoint fexpr_Q (e : fexpr) : option Q :=
  match e with
  | FOfInt z => Some (inject_Z z)
  | FLit m k => Some (Qmake m (Z.to_pos (10 ^ k)))
  | FTrueDiv a b => Some (Qdiv (inject_Z a) (inject_Z b))
  | FAdd a b =>
      match fexpr_Q a, fexpr_Q b with Some x, Some y => Some (Qplus x y) | _, _ => None end
  | FSub a b =>
      match fexpr_Q a, fexpr_Q b with Some x, Some y => Some (Qminus x y) | _, _ => None end
  | FMul a b =>
      match fexpr_Q a, fexpr_Q b with Some x, Some y => Some (Qmult x y) | _, _ => None end
  | FRadians _ | FCos _ | FSin _ => None
  end.

Definition fexpr_trunc (e : fexpr) : Z :=
  match fexpr_Q e with
  | Some q => Z.quot (Qnum q) (Zpos (Qden q))
  | None => 0
  end.

(** [x < y] on the expressions that read as exact rationals; the others
    (trigonometric ones) are never compared by the script. *)
Definition fexpr_ltb (a b : fexpr) : bool :=
  match fexpr_Q a, fexpr_Q b with
  | Some x, Some y => negb (Qle_bool y x)
  | _, _ => false
  end.

#[export] Instance symbolic_floats : FloatOps := {|
  flt := fexpr;
  flt_of_int := FOfInt;
  flt_lit := FLit;
  int_truediv := FTrueDiv;
  flt_add := FAdd;
  flt_sub := FSub;
  flt_mul := FMul;
  flt_trunc := fexpr_trunc;
  flt_ltb := fexpr_ltb;
  math_radians := FRadians;
  math_cos := FCos;
  math_sin := FSin
|}.

(** A checkout under /home/dev/sunlight-tracker where everything succeeds. *)
Definition repo_file : path :=
  ["home"; "dev"; "sunlight-tracker"; "scripts"; "generate_app_icon.py"].

Definition world_ok : world := {|
  w_argv := ["scripts/generate_app_icon.py"];
  w_environ := [("HOME", "/home/dev")];
  w_file := repo_file;
  w_import_pil := None;
  w_mkdir := fun _ => None;
  w_save := fun _ => None
|}.

Definition state0 {FO : FloatOps} : state := {| st_heap := ∅; st_next := 0; st_trace := [] |}.

(** ** Running the primitives *)

Section Runs.
Context {FO : FloatOps}.
Implicit Types (w : world) (st : state).

Lemma bind_Ok {A B} (m : M A) (k : A -> M B) w st a st' :
  m w st = (Ok a, st') -> bind m k w st = k a w st'.
Proof. intros H. unfold bind. by rewrite H. Qed.

Lemma bind_Exc {A B} (m : M A) (k : A -> M B) w st e st' :
  m w st = (Exc e, st') -> bind m k w st = (Exc e, st').
Proof. intros H. unfold bind. by rewrite H. Qed.

Lemma draw_apply_run l c op w st :
  st_heap st !! l = Some c ->
  draw_apply l op w st =
  (Ok tt, {| st_heap := <[l := Painted c op]> (st_heap st);
             st_next := st_next st; st_trace := st_trace st |}).
Proof. intros H. unfold draw_apply, bind, load, store. by rewrite H. Qed.

Lemma for_draw_run {A} (xs : list A) (f : A -> draw_op) l c w st :
  st_heap st !! l = Some c ->
  for_ xs (fun x => draw_apply l (f x)) w st =
  (Ok tt, {| st_heap := <[l := fold_left (fun c x => Painted c (f x)) xs c]> (st_heap st);
             st_next := st_next st; st_trace := st_trace st |}).
Proof.
  revert c st. induction xs as [|x xs IH]; intros c st H; simpl.
  - destruct st as [h n tr]. simpl in *. unfold ret. by rewrite insert_id.
  - erewrite bind_Ok by (apply draw_apply_run; exact H).
    erewrite IH by (simpl; apply lookup_insert_eq). simpl.
    by rewrite insert_insert_eq.
Qed.

Lemma draw_icon_run size w st :
  0 < size ->
  draw_icon size w st =
  (Ok (st_next st),
   {| st_heap := <[st_next st := draw_icon_canvas size]> (st_heap st);
      st_next := S (st_next st); st_trace := st_trace st |}).
Proof.
  intros Hs. unfold draw_icon.
  erewrite bind_Ok.
  2:{ unfold Image_new. replace ((size <? 0) || (size <? 0)) with false
        by (symmetry; apply orb_false_iff; split; apply Z.ltb_ge; lia).
      reflexivity. }
  erewrite bind_Ok by reflexivity.
  erewrite bind_Ok.
  2:{ unfold ImageDraw_rounded_rectangle, pynum_ltb.
      replace (size - 1 <? 0) with false by (symmetry; apply Z.ltb_ge; lia).
      apply draw_apply_run; simpl; apply lookup_insert_eq. }
  erewrite bind_Ok by (apply draw_apply_run; simpl; apply lookup_insert_eq).
  erewrite bind_Ok.
  2:{ eapply (for_draw_run (range 8) (fun i =>
        Polygon [PFloat (flt_mul (flt_of_int size) (flt_lit 5 1));
                 PFloat (flt_mul (flt_of_int size) (flt_lit 48 2));
                 PFloat (flt_add (flt_mul (flt_of_int size) (flt_lit 5 1))
                           (flt_mul (flt_mul (flt_of_int size) (flt_lit 4 1))
                              (math_cos (math_radians (flt_of_int (i * 45 - 20))))));
                 PFloat (flt_sub (flt_mul (flt_of_int size) (flt_lit 48 2))
                           (flt_mul (flt_mul (flt_of_int size) (flt_lit 4 1))
                              (math_sin (math_radians (flt_of_int (i * 45 - 20))))));
                 PFloat (flt_add (flt_mul (flt_of_int size) (flt_lit 5 1))
                           (flt_mul (flt_mul (flt_of_int size) (flt_lit 4 1))
                              (math_cos (math_radians (flt_of_int (i * 45 + 20))))));
                 PFloat (flt_sub (flt_mul (flt_of_int size) (flt_lit 48 2))
                           (flt_mul (flt_mul (flt_of_int size) (flt_lit 4 1))
                              (math_sin (math_radians (flt_of_int (i * 45 + 20))))))]
          (RGB 255 230 160))).
      simpl. apply lookup_insert_eq. }
  simpl. unfold ret. by rewrite !insert_insert_eq.
Qed.

(** Pillow rejects every size [<= 0]: a negative one in [Image.new], size 0
    at the rounded rectangle [[0, 0, -1, -1]].  No I/O happens. *)
Lemma draw_icon_nonpos size w st :
  size <= 0 ->
  exists st', draw_icon size w st =
    (Exc (ValueError (if size <? 0 then "Width and height must be >= 0"
                      else "x1 must be greater than or equal to x0")), st') /\
    st_trace st' = st_trace st.
Proof.
  intros Hs. unfold draw_icon. destruct (size <? 0) eqn:Hn.
  - erewrite bind_Exc by (unfold Image_new; rewrite Hn; reflexivity). eauto.
  - assert (size = 0) as -> by (apply Z.ltb_ge in Hn; lia).
    erewrite bind_Ok by reflexivity.
    erewrite bind_Ok by reflexivity.
    erewrite bind_Exc by reflexivity. eauto.
Qed.

Lemma main_step_run D l c s w st :
  st_heap st !! l = Some c -> (l < st_next st)%nat ->
  w_save w (D ++ [icon_name s]) = None ->
  exists h', main_step D l s w st =
    (Ok tt, {| st_heap := h'; st_next := st_next st + resized_count [s];
               st_trace := st_trace st ++ loop_trace D c [s] |})
    /\ h' !! l = Some c.
Proof.
  intros Hl Hn Hs. unfold main_step, resized_count, loop_trace, output_canvas.
  destruct (Z.eqb s MASTER_SIZE) eqn:E; simpl.
  - exists (st_heap st). split; [|exact Hl].
    unfold Image_save, print_stdout, emit, bind, ret, load, get_world. simpl.
    rewrite Hl, Hs. simpl. rewrite <- app_assoc; simpl; rewrite E; simpl. repeat f_equal; lia.
  - exists (<[st_next st := Resized LANCZOS s s c]> (st_heap st)). split.
    + unfold Image_resize, Image_save, print_stdout, emit, bind, ret, load, alloc, get_world.
      simpl. rewrite Hl. simpl. rewrite lookup_insert_eq, Hs. simpl.
      rewrite <- app_assoc; simpl; rewrite E; simpl. repeat f_equal; lia.
    + rewrite lookup_insert_ne by lia. exact Hl.
Qed.

Lemma main_step_fail D l c s e w st :
  st_heap st !! l = Some c -> (l < st_next st)%nat ->
  w_save w (D ++ [icon_name s]) = Some e ->
  exists st', main_step D l s w st = (Exc e, st') /\ st_trace st' = st_trace st.
Proof.
  intros Hl Hn Hs. unfold main_step.
  destruct (Z.eqb s MASTER_SIZE) eqn:E; simpl.
  - unfold Image_save, bind, ret, load, get_world, raise. simpl.
    rewrite Hl, Hs. eauto.
  - unfold Image_resize, Image_save, bind, ret, load, alloc, get_world, raise.
    simpl. rewrite Hl. simpl. rewrite lookup_insert_eq, Hs. simpl. eauto.
Qed.

Lemma loop_run D l c sizes w st :
  st_heap st !! l = Some c -> (l < st_next st)%nat ->
  Forall (fun s => w_save w (D ++ [icon_name s]) = None) sizes ->
  exists h', for_ sizes (main_step D l) w st =
    (Ok tt, {| st_heap := h'; st_next := st_next st + resized_count sizes;
               st_trace := st_trace st ++ loop_trace D c sizes |})
    /\ h' !! l = Some c.
Proof.
  revert st. induction sizes as [|s sizes IH]; intros st Hl Hn Hall; simpl.
  - exists (st_heap st). split; [|exact Hl].
    destruct st as [h n tr]. unfold ret. simpl. by rewrite Nat.add_0_r, app_nil_r.
  - inversion Hall as [|? ? Hs Hrest]; subst.
    destruct (main_step_run D l c s w st Hl Hn Hs) as [h1 [E1 H1]].
    erewrite bind_Ok by exact E1.
    destruct (IH {| st_heap := h1; st_next := st_next st + resized_count [s];
                    st_trace := st_trace st ++ loop_trace D c [s] |} H1 ltac:(simpl; lia) Hrest)
      as [h2 [E2 H2]].
    rewrite E2. exists h2. split; [|exact H2].
    simpl. f_equal. f_equal.
    + unfold resized_count. simpl. destruct (Z.eqb s MASTER_SIZE); simpl; lia.
    + unfold loop_trace. simpl. by rewrite <- app_assoc.
Qed.

Lemma loop_fail D l c pre s post e w st :
  st_heap st !! l = Some c -> (l < st_next st)%nat ->
  Forall (fun s => w_save w (D ++ [icon_name s]) = None) pre ->
  w_save w (D ++ [icon_name s]) = Some e ->
  exists st', for_ (pre ++ s :: post) (main_step D l) w st = (Exc e, st')
    /\ st_trace st' = st_trace st ++ loop_trace D c pre.
Proof.
  revert st. induction pre as [|p pre IH]; intros st Hl Hn Hall Hs; simpl.
  - destruct (main_step_fail D l c s e w st Hl Hn Hs) as [st1 [E1 T1]].
    erewrite bind_Exc by exact E1. exists st1. split; [done|].
    rewrite T1. unfold loop_trace. simpl. by rewrite app_nil_r.
  - inversion Hall as [|? ? Hp Hrest]; subst.
    destruct (main_step_run D l c p w st Hl Hn Hp) as [h1 [E1 H1]].
    erewrite bind_Ok by exact E1.
    destruct (IH {| st_heap := h1; st_next := st_next st + resized_count [p];
                    st_trace := st_trace st ++ loop_trace D c [p] |} H1 ltac:(simpl; lia) Hrest Hs)
      as [st2 [E2 T2]].
    exists st2. split; [exact E2|]. rewrite T2. simpl.
    unfold loop_trace. simpl. by rewrite <- app_assoc.
Qed.

(** Either every save of the loop succeeds or a first one fails. *)
Lemma first_failure D w (sizes : list Z) :
  Forall (fun s => w_save w (D ++ [icon_name s]) = None) sizes \/
  exists pre s post e, sizes = pre ++ s :: post /\
    Forall (fun s => w_save w (D ++ [icon_name s]) = None) pre /\
    w_save w (D ++ [icon_name s]) = Some e.
Proof.
  induction sizes as [|x xs IH]; [left; constructor|].
  destruct (w_save w (D ++ [icon_name x])) as [e|] eqn:Ex.
  - right. exists [], x, xs, e. repeat split; auto.
  - destruct IH as [IH | (pre & s & post & e & -> & Hpre & Hs)].
    + left. by constructor.
    + right. exists (x :: pre), s, post, e. repeat split; auto.
Qed.

(** ** The runs of the script, world by world *)

Lemma import_run_ok w st :
  w_import_pil w = None -> import_PIL w st = (Ok tt, st).
Proof. intros H. unfold import_PIL, bind, get_world. by rewrite H. Qed.

Lemma import_run_exc w st e :
  w_import_pil w = Some e -> import_PIL w st = (Exc e, st).
Proof. intros H. unfold import_PIL, bind, get_world. by rewrite H. Qed.

Lemma run_import_error w st e :
  w_import_pil w = Some e -> is_ImportError e = true ->
  run w st = (Exc (SystemExit 1),
              {| st_heap := st_heap st; st_next := st_next st;
                 st_trace := st_trace st ++ [EStderr "Install Pillow: pip install Pillow"] |}).
Proof.
  intros H1 H2. unfold run, script. erewrite bind_Exc; [reflexivity|].
  unfold try_except. rewrite (import_run_exc w st e H1), H2. reflexivity.
Qed.

Lemma run_import_other w st e :
  w_import_pil w = Some e -> is_ImportError e = false -> run w st = (Exc e, st).
Proof.
  intros H1 H2. unfold run, script. erewrite bind_Exc; [reflexivity|].
  unfold try_except. rewrite (import_run_exc w st e H1), H2. reflexivity.
Qed.

(** Past the guarded import, the script runs [main] on [OUT_DIR]. *)
Lemma run_main w st :
  w_import_pil w = None -> run w st = main (OUT_DIR_of (w_file w)) w st.
Proof.
  intros H. unfold run, script. erewrite bind_Ok.
  2:{ unfold try_except. by rewrite import_run_ok. }
  reflexivity.
Qed.

Lemma run_mkdir_fail w st e :
  w_import_pil w = None -> w_mkdir w (OUT_DIR_of (w_file w)) = Some e ->
  run w st = (Exc e, st).
Proof.
  intros H1 H2. rewrite run_main by exact H1. unfold main.
  erewrite bind_Exc; [reflexivity|].
  unfold Path_mkdir, bind, get_world. by rewrite H2.
Qed.

Lemma mkdir_run_ok D w st :
  w_mkdir w D = None ->
  Path_mkdir D true true w st =
  (Ok tt, {| st_heap := st_heap st; st_next := st_next st;
             st_trace := st_trace st ++ [EMkdir D true true] |}).
Proof. intros H. unfold Path_mkdir, bind, get_world. by rewrite H. Qed.

Lemma run_success w st :
  succeeds w ->
  exists h', run w st =
    (Ok tt, {| st_heap := h'; st_next := st_next st + 7;
               st_trace := st_trace st ++
                 EMkdir (OUT_DIR_of (w_file w)) true true ::
                 loop_trace (OUT_DIR_of (w_file w)) (draw_icon_canvas MASTER_SIZE) SIZES ++
                 [EStdout "Done. Update Contents.json with filenames if not already set."] |})
    /\ h' !! st_next st = Some (draw_icon_canvas MASTER_SIZE).
Proof.
  intros (Hi & Hm & Hs). rewrite run_main by exact Hi. unfold main.
  erewrite bind_Ok by (apply mkdir_run_ok; exact Hm).
  erewrite bind_Ok by (apply draw_icon_run; unfold MASTER_SIZE; lia).
  destruct (loop_run (OUT_DIR_of (w_file w)) (st_next st) (draw_icon_canvas MASTER_SIZE) SIZES w
              {| st_heap := <[st_next st := draw_icon_canvas MASTER_SIZE]> (st_heap st);
                 st_next := S (st_next st);
                 st_trace := st_trace st ++ [EMkdir (OUT_DIR_of (w_file w)) true true] |})
    as [h' [E H']]; simpl; [apply lookup_insert_eq | lia | exact Hs |].
  erewrite bind_Ok by exact E.
  exists h'. split; [|exact H'].
  unfold print_stdout, emit. simpl. f_equal. f_equal.
  - unfold resized_count. simpl. lia.
  - by rewrite <- !app_assoc.
Qed.

Lemma run_save_fail w st pre s post e :
  w_import_pil w = None -> w_mkdir w (OUT_DIR_of (w_file w)) = None ->
  SIZES = pre ++ s :: post ->
  Forall (fun s => w_save w (OUT_DIR_of (w_file w) ++ [icon_name s]) = None) pre ->
  w_save w (OUT_DIR_of (w_file w) ++ [icon_name s]) = Some e ->
  exists st', run w st = (Exc e, st') /\
    st_trace st' = st_trace st ++ EMkdir (OUT_DIR_of (w_file w)) true true ::
                   loop_trace (OUT_DIR_of (w_file w)) (draw_icon_canvas MASTER_SIZE) pre.
Proof.
  intros Hi Hm Hsz Hpre He. rewrite run_main by exact Hi. unfold main. rewrite Hsz.
  erewrite bind_Ok by (apply mkdir_run_ok; exact Hm).
  erewrite bind_Ok by (apply draw_icon_run; unfold MASTER_SIZE; lia).
  destruct (loop_fail (OUT_DIR_of (w_file w)) (st_next st) (draw_icon_canvas MASTER_SIZE)
              pre s post e w
              {| st_heap := <[st_next st := draw_icon_canvas MASTER_SIZE]> (st_heap st);
                 st_next := S (st_next st);
                 st_trace := st_trace st ++ [EMkdir (OUT_DIR_of (w_file w)) true true] |})
    as [st' [E T]]; simpl; [apply lookup_insert_eq | lia | exact Hpre | exact He |].
  erewrite bind_Exc by exact E.
  exists st'. split; [reflexivity|]. rewrite T. simpl. by rewrite <- app_assoc.
Qed.

End Runs.

(** ** The model on a concrete world *)

Example run_ok_status : exit_status (fst (run (FO := symbolic_floats) world_ok state0)) = 0.
Proof. vm_compute. reflexivity. Qed.

Example run_ok_trace_length :
  length (st_trace (snd (run (FO := symbolic_floats) world_ok state0))) = 16%nat.
Proof. vm_compute. reflexivity. Qed.

Example icon_name_16 : icon_name 16 = "icon_16.png".
Proof. vm_compute. reflexivity. Qed.

Example radius_1024 :
  flt_trunc (FloatOps := symbolic_floats) (flt_mul (flt_of_int 1024) (flt_lit 18 2)) = 184.
Proof. vm_compute. reflexivity. Qed.


(** ** Facts about traces and the frame of a run *)

Section Facts.
Context {FO : FloatOps}.
Implicit Types (w : world) (st : state).

Lemma new_events_app st h n tr :
  new_events st {| st_heap := h; st_next := n; st_trace := st_trace st ++ tr |} = tr.
Proof. unfold new_events. simpl. apply drop_app_length. Qed.

Lemma new_events_refl st : new_events st st = [].
Proof. unfold new_events. apply drop_all. Qed.

Lemma new_events_same st h n :
  new_events st {| st_heap := h; st_next := n; st_trace := st_trace st |} = [].
Proof. unfold new_events. simpl. apply drop_all. Qed.

Lemma writes_app tr1 tr2 : writes (tr1 ++ tr2) = writes tr1 ++ writes tr2.
Proof. unfold writes. apply omap_app. Qed.

Lemma written_paths_writes tr : written_paths tr = map fst (writes tr).
Proof. induction tr as [|[] tr IH]; simpl; auto; by rewrite IH. Qed.

Lemma writes_loop_trace D c sizes :
  writes (loop_trace D c sizes) = map (fun s => (D ++ [icon_name s], output_canvas c s)) sizes.
Proof.
  induction sizes as [|s sizes IH]; [reflexivity|].
  unfold writes, loop_trace in *. simpl. f_equal. exact IH.
Qed.

Lemma icon_names_distinct : NoDup (map icon_name SIZES).
Proof. apply (bool_decide_unpack _). vm_compute. exact I. Qed.

Lemma out_paths_distinct D : NoDup (map (fun s => D ++ [icon_name s]) SIZES).
Proof.
  rewrite <- (map_map icon_name (fun n => D ++ [n])).
  apply NoDup_ListNoDup, Stdlib.Lists.Finite.Injective_map_NoDup;
    [|apply NoDup_ListNoDup, icon_names_distinct].
  intros a b H. apply app_inv_head in H. by injection H.
Qed.

Lemma run_success_writes w st :
  succeeds w ->
  fst (run w st) = Ok tt /\
  writes (new_events st (snd (run w st))) =
    map (fun s => (OUT_DIR_of (w_file w) ++ [icon_name s],
                   output_canvas (draw_icon_canvas MASTER_SIZE) s)) SIZES.
Proof.
  intros Hw. destruct (run_success w st Hw) as [h' [E _]]. rewrite E. simpl.
  split; [done|]. rewrite new_events_app. simpl.
  reflexivity.
Qed.

Lemma loop_trace_in_out_dir D c sizes :
  (forall s, In s sizes -> In s SIZES) ->
  Forall (event_in_out_dir D) (loop_trace D c sizes).
Proof.
  induction sizes as [|s sizes IH]; intros Hin; simpl; [constructor|].
  repeat constructor.
  - exists s. split; [apply Hin; left; done | done].
  - apply IH. intros x Hx. apply Hin. by right.
Qed.

(** *** Framing: a run reads no part of the world but [same_io] *)

Lemma respects_ret {A} (a : A) : respects (ret a).
Proof. intros w1 w2 st _. reflexivity. Qed.

Lemma respects_raise {A} e : respects (A := A) (raise e).
Proof. intros w1 w2 st _. reflexivity. Qed.

Lemma respects_bind {A B} (m : M A) (k : A -> M B) :
  respects m -> (forall a, respects (k a)) -> respects (bind m k).
Proof.
  intros Hm Hk w1 w2 st H. unfold bind. rewrite (Hm w1 w2 st H).
  destruct (m w2 st) as [[a|e] st']; [apply Hk, H | reflexivity].
Qed.

Lemma respects_try_except {A} (m : M A) (h : exn -> M A) :
  respects m -> (forall e, respects (h e)) -> respects (try_except m h).
Proof.
  intros Hm Hh w1 w2 st H. unfold try_except. rewrite (Hm w1 w2 st H).
  destruct (m w2 st) as [[a|e] st']; [reflexivity | apply Hh, H].
Qed.

Lemma respects_for {A} (xs : list A) (body : A -> M unit) :
  (forall x, respects (body x)) -> respects (for_ xs body).
Proof.
  intros Hb. induction xs as [|x xs IH]; simpl.
  - apply respects_ret.
  - apply respects_bind; [apply Hb | intros; exact IH].
Qed.

Lemma respects_emit e : respects (emit e).
Proof. intros w1 w2 st _. reflexivity. Qed.

Lemma respects_alloc c : respects (alloc c).
Proof. intros w1 w2 st _. reflexivity. Qed.

Lemma respects_load l : respects (load l).
Proof. intros w1 w2 st _. reflexivity. Qed.

Lemma respects_store l c : respects (store l c).
Proof. intros w1 w2 st _. reflexivity. Qed.

Lemma respects_import : respects import_PIL.
Proof.
  intros w1 w2 st (_ & Hi & _ & _). unfold import_PIL, bind, get_world.
  rewrite Hi. by destruct (w_import_pil w2).
Qed.

Lemma respects_mkdir p parents exist_ok : respects (Path_mkdir p parents exist_ok).
Proof.
  intros w1 w2 st (_ & _ & Hm & _). unfold Path_mkdir, bind, get_world.
  rewrite Hm. by destruct (w_mkdir w2 p).
Qed.

Lemma respects_save img p fmt : respects (Image_save img p fmt).
Proof.
  intros w1 w2 st (_ & _ & _ & Hs). unfold Image_save, bind, load, get_world.
  destruct (st_heap st !! img); [|reflexivity].
  rewrite Hs. by destruct (w_save w2 p).
Qed.

End Facts.

Create HintDb frame.
#[export] Hint Resolve respects_ret respects_raise respects_emit respects_alloc
  respects_load respects_store respects_import respects_mkdir respects_save : frame.

(** Splits a computation into its primitive calls. *)
Ltac frame :=
  repeat (first
    [ solve [ eauto with frame ]
    | progress (cbv zeta)
    | apply respects_bind; [| intros ]
    | apply respects_try_except; [| intros ]
    | apply respects_for; intros
    | match goal with |- context [if ?b then _ else _] => destruct b end ]).

Section FrameRuns.
Context {FO : FloatOps}.

Lemma respects_draw_icon size : respects (draw_icon size).
Proof.
  unfold draw_icon, ImageDraw_Draw, ImageDraw_rounded_rectangle, ImageDraw_ellipse,
    ImageDraw_polygon, Image_new, draw_apply.
  frame.
Qed.

#[local] Hint Resolve respects_draw_icon : frame.

Lemma respects_main D : respects (main D).
Proof.
  unfold main, main_step, Image_resize, print_stdout. frame.
Qed.

Lemma respects_script : respects script.
Proof.
  unfold script. apply respects_bind; [| intros [] ].
  - unfold print_stderr, sys_exit. frame.
  - intros w1 w2 st H. unfold bind, get_world. cbv zeta.
    destruct H as [Hf Hrest]. rewrite Hf. apply respects_main. by split.
Qed.

End FrameRuns.

(** ** The claims *)

Section Claims.
Context {FO : FloatOps}.
Implicit Types (w : world) (st : state).

(** C1. In a world where the import of Pillow, the mkdir and every save
    succeed, a run completes and writes, in the order of SIZES, one file
    OUT_DIR/icon_{s}.png for each size s, whose image is s by s pixels; the
    seven paths are pairwise distinct, so the run creates exactly 7 files. *)
Theorem main_writes_each_size w st :
  succeeds w ->
  fst (run w st) = Ok tt /\
  map (fun pc => (pc.1, canvas_size pc.2)) (writes (new_events st (snd (run w st)))) =
    map (fun s => (OUT_DIR_of (w_file w) ++ [icon_name s], (s, s))) SIZES /\
  length (written_paths (new_events st (snd (run w st)))) = 7%nat /\
  NoDup (written_paths (new_events st (snd (run w st)))).
Proof.
  intros Hw. destruct (run_success_writes w st Hw) as [Hok Hwr].
  rewrite written_paths_writes, Hwr. split; [exact Hok|]. split; [|split].
  - reflexivity.
  - reflexivity.
  - rewrite map_map. apply out_paths_distinct.
Qed.


(** C3. In a successful run every size below MASTER_SIZE is saved as the
    master render resampled with LANCZOS to s by s, and MASTER_SIZE itself
    as the master render with no resampling. *)
Theorem smaller_sizes_resample_master w st :
  succeeds w ->
  writes (new_events st (snd (run w st))) =
    map (fun s => (OUT_DIR_of (w_file w) ++ [icon_name s],
                   if s <? MASTER_SIZE
                   then Resized LANCZOS s s (draw_icon_canvas MASTER_SIZE)
                   else draw_icon_canvas MASTER_SIZE)) SIZES.
Proof.
  intros Hw. destruct (run_success_writes w st Hw) as [_ ->]. reflexivity.
Qed.

(** C4. A failing [from PIL import ...] with an [ImportError] writes the
    install hint to stderr and ends the run with [SystemExit 1] (exit status
    1) before anything else happens; any other exception, of the import, of
    the mkdir or of a save, propagates out of the script as it was raised. *)
Theorem only_import_failure_handled w st :
  (forall e, w_import_pil w = Some e -> is_ImportError e = true ->
     run w st = (Exc (SystemExit 1),
                 {| st_heap := st_heap st; st_next := st_next st;
                    st_trace := st_trace st ++ [EStderr "Install Pillow: pip install Pillow"] |})
     /\ exit_status (fst (run w st)) = 1) /\
  (forall e, w_import_pil w = Some e -> is_ImportError e = false ->
     run w st = (Exc e, st)) /\
  (forall e, w_import_pil w = None -> w_mkdir w (OUT_DIR_of (w_file w)) = Some e ->
     run w st = (Exc e, st)) /\
  (forall pre s post e, w_import_pil w = None -> w_mkdir w (OUT_DIR_of (w_file w)) = None ->
     SIZES = pre ++ s :: post ->
     Forall (fun s => w_save w (OUT_DIR_of (w_file w) ++ [icon_name s]) = None) pre ->
     w_save w (OUT_DIR_of (w_file w) ++ [icon_name s]) = Some e ->
     fst (run w st) = Exc e).
Proof.
  split; [|split; [|split]].
  - intros e Hi He. rewrite (run_import_error w st e Hi He). split; reflexivity.
  - intros e Hi He. exact (run_import_other w st e Hi He).
  - intros e Hi Hm. exact (run_mkdir_fail w st e Hi Hm).
  - intros pre s post e Hi Hm Hsz Hpre Hs.
    destruct (run_save_fail w st pre s post e Hi Hm Hsz Hpre Hs) as [st' [-> _]].
    reflexivity.
Qed.

(** C5. The render is deterministic: for every size, [draw_icon size] has
    the same outcome whatever the world and the state it runs in, the same
    image content when it returns and the same exception when Pillow
    rejects the size; and two successful runs save the same contents under
    the same file names, in the same order. *)
Theorem rendering_deterministic w1 w2 st1 st2 :
  succeeds w1 -> succeeds w2 ->
  (forall size st1' st2',
     match draw_icon size w1 st1', draw_icon size w2 st2' with
     | (Ok l1, s1), (Ok l2, s2) =>
         st_heap s1 !! l1 = st_heap s2 !! l2 /\ is_Some (st_heap s1 !! l1)
     | (Exc e1, _), (Exc e2, _) => e1 = e2
     | _, _ => False
     end) /\
  map (fun pc => (last pc.1, pc.2)) (writes (new_events st1 (snd (run w1 st1)))) =
  map (fun pc => (last pc.1, pc.2)) (writes (new_events st2 (snd (run w2 st2)))).
Proof.
  intros Hw1 Hw2. split.
  - intros size st1' st2'. destruct (Z.lt_ge_cases 0 size) as [Hs | Hs].
    + rewrite !draw_icon_run by exact Hs. simpl.
      rewrite !lookup_insert_eq. split; [reflexivity | eexists; reflexivity].
    + destruct (draw_icon_nonpos size w1 st1' Hs) as [s1 [-> _]].
      destruct (draw_icon_nonpos size w2 st2' Hs) as [s2 [-> _]]. reflexivity.
  - destruct (run_success_writes w1 st1 Hw1) as [_ ->].
    destruct (run_success_writes w2 st2 Hw2) as [_ ->].
    rewrite !map_map. apply map_ext. intros s. simpl. by rewrite !last_snoc.
Qed.

(** C6. In every world, a run reads no file, creates no directory but
    OUT_DIR, and writes only PNG files OUT_DIR/icon_{s}.png for sizes s of
    SIZES; when it succeeds it writes exactly one such file per size, each
    path once. *)
Theorem writes_confined_to_out_dir w st :
  Forall (event_in_out_dir (OUT_DIR_of (w_file w))) (new_events st (snd (run w st))) /\
  (succeeds w ->
   written_paths (new_events st (snd (run w st))) =
     map (fun s => OUT_DIR_of (w_file w) ++ [icon_name s]) SIZES /\
   NoDup (written_paths (new_events st (snd (run w st))))).
Proof.
  split.
  - destruct (w_import_pil w) as [e|] eqn:Hi.
    + destruct (is_ImportError e) eqn:He.
      * rewrite (run_import_error w st e Hi He). simpl. rewrite new_events_app.
        repeat constructor.
      * rewrite (run_import_other w st e Hi He). simpl. rewrite new_events_refl.
        constructor.
    + destruct (w_mkdir w (OUT_DIR_of (w_file w))) as [e|] eqn:Hm.
      * rewrite (run_mkdir_fail w st e Hi Hm). simpl. rewrite new_events_refl.
        constructor.
      * destruct (first_failure (OUT_DIR_of (w_file w)) w SIZES)
          as [Hall | (pre & s & post & e & Hsz & Hpre & Hs)].
        -- destruct (run_success w st (conj Hi (conj Hm Hall))) as [h' [-> _]].
           cbn [snd]. rewrite new_events_app. constructor; [reflexivity|].
           apply Forall_app. split.
           ++ apply loop_trace_in_out_dir. auto.
           ++ repeat constructor.
        -- destruct (run_save_fail w st pre s post e Hi Hm Hsz Hpre Hs) as [st' [-> T]].
           cbn [snd]. unfold new_events. rewrite T, drop_app_length.
           constructor; [reflexivity|].
           apply loop_trace_in_out_dir. intros x Hx. rewrite Hsz.
           apply in_or_app. by left.
  - intros Hw. destruct (run_success_writes w st Hw) as [_ Hwr].
    rewrite written_paths_writes, Hwr, map_map. split; [reflexivity|].
    apply out_paths_distinct.
Qed.

(** C7. Two invocations whose worlds differ only in the command line and the
    environment run identically: same outcome, same trace, same final
    state. *)
Theorem independent_of_argv_and_environ w1 w2 st :
  w_file w1 = w_file w2 -> w_import_pil w1 = w_import_pil w2 ->
  w_mkdir w1 = w_mkdir w2 -> w_save w1 = w_save w2 ->
  run w1 st = run w2 st.
Proof.
  intros Hf Hi Hm Hs. unfold run. apply respects_script. by repeat split.
Qed.


(** C9. A successful run renders once: it allocates one image object for
    the master render and one per resized size, the master object holds
    [draw_icon_canvas MASTER_SIZE], the 1024 file is that render itself, and
    every saved image is the render or a resampling of it. *)
Theorem single_master_render w st :
  succeeds w ->
  st_next (snd (run w st)) = (st_next st + 1 + resized_count SIZES)%nat /\
  st_heap (snd (run w st)) !! st_next st = Some (draw_icon_canvas MASTER_SIZE) /\
  In (OUT_DIR_of (w_file w) ++ [icon_name MASTER_SIZE], draw_icon_canvas MASTER_SIZE)
     (writes (new_events st (snd (run w st)))) /\
  List.Forall (fun pc => pc.2 = draw_icon_canvas MASTER_SIZE \/
                         exists s, pc.2 = Resized LANCZOS s s (draw_icon_canvas MASTER_SIZE))
     (writes (new_events st (snd (run w st)))).
Proof.
  intros Hw.
  destruct (run_success w st Hw) as [h' [E H']].
  destruct (run_success_writes w st Hw) as [_ Hwr].
  rewrite Hwr. rewrite E. simpl. split; [unfold resized_count; simpl; lia|].
  split; [exact H'|]. split.
  - do 6 right. left. reflexivity.
  - apply List.Forall_forall. intros pc Hin. simpl in Hin.
    repeat destruct Hin as [<- | Hin];
      first [ left; reflexivity | right; eexists; reflexivity | contradiction ].
Qed.

(** C10. The loop of [main] never changes the master object: run over any
    ordering of SIZES from a master content [c], it leaves [c] in place,
    saves the same (path, content) pairs up to order, every content derived
    from [c], and no path twice. *)
Theorem loop_master_unchanged_order_irrelevant D l c sizes w st :
  st_heap st !! l = Some c -> (l < st_next st)%nat -> sizes ≡ₚ SIZES ->
  Forall (fun s => w_save w (D ++ [icon_name s]) = None) SIZES ->
  exists st', for_ sizes (main_step D l) w st = (Ok tt, st') /\
    st_heap st' !! l = Some c /\
    writes (new_events st st') ≡ₚ map (fun s => (D ++ [icon_name s], output_canvas c s)) SIZES /\
    NoDup (written_paths (new_events st st')).
Proof.
  intros Hl Hn Hp Hall.
  assert (Hall' : Forall (fun s => w_save w (D ++ [icon_name s]) = None) sizes).
  { exact (Permutation_Forall (Permutation_sym Hp) Hall). }
  destruct (loop_run D l c sizes w st Hl Hn Hall') as [h' [E H']].
  eexists. split; [exact E|]. split; [exact H'|].
  rewrite new_events_app, written_paths_writes, writes_loop_trace. split.
  - by apply Permutation_map.
  - rewrite map_map. apply NoDup_ListNoDup.
    apply (Permutation_NoDup (Permutation_map _ (Permutation_sym Hp))).
    apply NoDup_ListNoDup, out_paths_distinct.
Qed.

End Claims.

(** ** Witnesses: the hypotheses of the claims hold on concrete worlds *)

(** The same checkout, invoked with other arguments and another environment. *)
Definition world_alt : world := {|
  w_argv := ["/home/dev/sunlight-tracker/scripts/generate_app_icon.py"; "--size"; "64"];
  w_environ := [("HOME", "/root"); ("ICON_SIZES", "16")];
  w_file := repo_file;
  w_import_pil := None;
  w_mkdir := fun _ => None;
  w_save := fun _ => None
|}.

(** Another checkout, under /srv/build. *)
Definition world_other : world := {|
  w_argv := ["generate_app_icon.py"];
  w_environ := [];
  w_file := ["srv"; "build"; "scripts"; "generate_app_icon.py"];
  w_import_pil := None;
  w_mkdir := fun _ => None;
  w_save := fun _ => None
|}.

(** A world without Pillow. *)
Definition world_no_pil : world := {|
  w_argv := ["scripts/generate_app_icon.py"];
  w_environ := [];
  w_file := repo_file;
  w_import_pil := Some (ModuleNotFoundError "PIL");
  w_mkdir := fun _ => None;
  w_save := fun _ => None
|}.

(** A world whose disk fills up at the third icon: saving icon_64.png fails
    with ENOSPC. *)
Definition world_disk_full : world := {|
  w_argv := ["scripts/generate_app_icon.py"];
  w_environ := [];
  w_file := repo_file;
  w_import_pil := None;
  w_mkdir := fun _ => None;
  w_save := fun p => if bool_decide (last p = Some "icon_64.png") then Some (OSError 28 p) else None
|}.

Example run_no_pil :
  run (FO := symbolic_floats) world_no_pil state0 =
  (Exc (SystemExit 1), {| st_heap := ∅; st_next := 0;
                          st_trace := [EStderr "Install Pillow: pip install Pillow"] |}).
Proof. vm_compute. reflexivity. Qed.

Lemma main_writes_each_size_witness :
  succeeds (FO := symbolic_floats) world_ok /\
  fst (run (FO := symbolic_floats) world_ok state0) = Ok tt.
Proof.
  assert (H : succeeds (FO := symbolic_floats) world_ok) by (repeat split; repeat constructor).
  split; [exact H|]. apply (main_writes_each_size world_ok state0 H).
Defined.

Lemma smaller_sizes_resample_master_witness :
  succeeds (FO := symbolic_floats) world_ok /\
  writes (new_events state0 (snd (run (FO := symbolic_floats) world_ok state0))) =
    map (fun s => (OUT_DIR_of repo_file ++ [icon_name s],
                   if s <? MASTER_SIZE
                   then Resized LANCZOS s s (draw_icon_canvas MASTER_SIZE)
                   else draw_icon_canvas MASTER_SIZE)) SIZES.
Proof.
  assert (H : succeeds (FO := symbolic_floats) world_ok) by (repeat split; repeat constructor).
  split; [exact H|]. apply (smaller_sizes_resample_master world_ok state0 H).
Defined.

Lemma rendering_deterministic_witness :
  succeeds (FO := symbolic_floats) world_ok /\ succeeds (FO := symbolic_floats) world_other /\
  map (fun pc => (last pc.1, pc.2))
      (writes (new_events state0 (snd (run (FO := symbolic_floats) world_ok state0)))) =
  map (fun pc => (last pc.1, pc.2))
      (writes (new_events state0 (snd (run (FO := symbolic_floats) world_other state0)))).
Proof.
  assert (H1 : succeeds (FO := symbolic_floats) world_ok) by (repeat split; repeat constructor).
  assert (H2 : succeeds (FO := symbolic_floats) world_other) by (repeat split; repeat constructor).
  split; [exact H1|]. split; [exact H2|].
  apply (rendering_deterministic world_ok world_other state0 state0 H1 H2).
Defined.

Lemma independent_of_argv_and_environ_witness :
  w_argv world_ok <> w_argv world_alt /\ w_environ world_ok <> w_environ world_alt /\
  run (FO := symbolic_floats) world_ok state0 = run world_alt state0.
Proof.
  split; [discriminate|]. split; [discriminate|].
  apply independent_of_argv_and_environ; reflexivity.
Defined.

Lemma single_master_render_witness :
  succeeds (FO := symbolic_floats) world_ok /\
  st_next (snd (run (FO := symbolic_floats) world_ok state0)) = 7%nat.
Proof.
  assert (H : succeeds (FO := symbolic_floats) world_ok) by (repeat split; repeat constructor).
  split; [exact H|].
  destruct (single_master_render world_ok state0 H) as [E _]. rewrite E. vm_compute. reflexivity.
Defined.

Lemma loop_master_unchanged_order_irrelevant_witness :
  exists st',
    for_ (rev SIZES) (main_step (OUT_DIR_of repo_file) 0) world_ok
      {| st_heap := {[0%nat := draw_icon_canvas (FO := symbolic_floats) MASTER_SIZE]};
         st_next := 1; st_trace := [] |} = (Ok tt, st') /\
    st_heap st' !! 0%nat = Some (draw_icon_canvas MASTER_SIZE).
Proof.
  destruct (loop_master_unchanged_order_irrelevant (OUT_DIR_of repo_file) 0
              (draw_icon_canvas MASTER_SIZE) (rev SIZES) world_ok
              {| st_heap := {[0%nat := draw_icon_canvas (FO := symbolic_floats) MASTER_SIZE]};
                 st_next := 1; st_trace := [] |})
    as (st' & E & H & _).
  - vm_compute. reflexivity.
  - simpl. lia.
  - apply (bool_decide_unpack _). vm_compute. exact I.
  - repeat constructor.
  - exists st'. split; [exact E | exact H].
Defined.

(** ** Further properties of the script *)

Section Extras.
Context {FO : FloatOps}.
Implicit Types (w : world) (st : state).

(** Every world falls in one of five runs. *)
Lemma run_cases w st :
  (exists e, w_import_pil w = Some e /\ is_ImportError e = true /\
     run w st = (Exc (SystemExit 1),
                 {| st_heap := st_heap st; st_next := st_next st;
                    st_trace := st_trace st ++ [EStderr "Install Pillow: pip install Pillow"] |})) \/
  (exists e, w_import_pil w = Some e /\ is_ImportError e = false /\ run w st = (Exc e, st)) \/
  (exists e, w_import_pil w = None /\ w_mkdir w (OUT_DIR_of (w_file w)) = Some e /\
     run w st = (Exc e, st)) \/
  (succeeds w /\ exists h', run w st =
    (Ok tt, {| st_heap := h'; st_next := st_next st + 7;
               st_trace := st_trace st ++
                 EMkdir (OUT_DIR_of (w_file w)) true true ::
                 loop_trace (OUT_DIR_of (w_file w)) (draw_icon_canvas MASTER_SIZE) SIZES ++
                 [EStdout "Done. Update Contents.json with filenames if not already set."] |})) \/
  (exists pre s post e st', w_import_pil w = None /\ w_mkdir w (OUT_DIR_of (w_file w)) = None /\
     SIZES = pre ++ s :: post /\
     Forall (fun s => w_save w (OUT_DIR_of (w_file w) ++ [icon_name s]) = None) pre /\
     w_save w (OUT_DIR_of (w_file w) ++ [icon_name s]) = Some e /\
     run w st = (Exc e, st') /\
     st_trace st' = st_trace st ++ EMkdir (OUT_DIR_of (w_file w)) true true ::
                    loop_trace (OUT_DIR_of (w_file w)) (draw_icon_canvas MASTER_SIZE) pre).
Proof.
  destruct (w_import_pil w) as [e|] eqn:Hi.
  - destruct (is_ImportError e) eqn:He.
    + left. exists e. split; [done|]. split; [done|]. exact (run_import_error w st e Hi He).
    + right; left. exists e. split; [done|]. split; [done|]. exact (run_import_other w st e Hi He).
  - destruct (w_mkdir w (OUT_DIR_of (w_file w))) as [e|] eqn:Hm.
    + do 2 right; left. exists e. split; [done|]. split; [done|].
      exact (run_mkdir_fail w st e Hi Hm).
    + destruct (first_failure (OUT_DIR_of (w_file w)) w SIZES)
        as [Hall | (pre & s & post & e & Hsz & Hpre & Hs)].
      * do 3 right; left. split; [by split|].
        destruct (run_success w st (conj Hi (conj Hm Hall))) as [h' [E _]]. eauto.
      * do 4 right.
        destruct (run_save_fail w st pre s post e Hi Hm Hsz Hpre Hs) as [st' [E T]].
        exists pre, s, post, e, st'. repeat split; auto.
Qed.

Lemma string_length_app (x y : string) : String.length (x +:+ y) = (String.length x + String.length y)%nat.
Proof. induction x as [|ch x IH]; simpl; auto. Qed.

Lemma string_app_inj_r (x y t : string) : x +:+ t = y +:+ t -> x = y.
Proof.
  revert y. induction x as [|a x IH]; intros [|b y] H; simpl in H; auto.
  - apply (f_equal String.length) in H. simpl in H. rewrite !string_length_app in H. simpl in H. lia.
  - apply (f_equal String.length) in H. simpl in H. rewrite !string_length_app in H. simpl in H. lia.
  - inversion H as [[Ha Hrest]]. subst. f_equal. by apply IH.
Qed.

Lemma loop_trace_reports D c sizes extra :
  (forall n, ~ In (EStdout ("Wrote " +:+ n)) extra) ->
  reports_follow_writes D (loop_trace D c sizes ++ extra).
Proof.
  intros Hx. induction sizes as [|s sizes IH]; intros tr1 n tr2 E.
  - simpl in E. exfalso. apply (Hx n). rewrite E. apply in_or_app. right. by left.
  - unfold loop_trace in E. simpl in E. fold (loop_trace D c sizes) in E.
    destruct tr1 as [|a [|b tr1]]; simpl in E.
    + discriminate E.
    + injection E as Ea En _. change (icon_name s = n) in En. subst n a.
      exists "PNG", (output_canvas c s), []. reflexivity.
    + injection E as Ea Eb E. subst.
      destruct (IH tr1 n tr2 E) as (fmt & c' & tr0 & ->).
      exists fmt, c', (EWrite (D ++ [icon_name s]) "PNG" (output_canvas c s) ::
                       EStdout ("Wrote " +:+ icon_name s) :: tr0). reflexivity.
Qed.

Lemma reports_cons_other D e tr :
  (forall n, e <> EStdout ("Wrote " +:+ n)) ->
  reports_follow_writes D tr -> reports_follow_writes D (e :: tr).
Proof.
  intros He Hr tr1 n tr2 E. destruct tr1 as [|a tr1]; simpl in E.
  - injection E as E _. by destruct (He n).
  - injection E as -> E. destruct (Hr tr1 n tr2 E) as (fmt & c & tr0 & ->).
    exists fmt, c, (a :: tr0). reflexivity.
Qed.

Lemma reports_nil D : reports_follow_writes D [].
Proof. intros [|? ?] n tr2 E; discriminate E. Qed.

Lemma loop_trace_no_stderr D c sizes l : ~ In (EStderr l) (loop_trace D c sizes).
Proof.
  induction sizes as [|s sizes IH]; simpl; [tauto|].
  intros [H|[H|H]]; [discriminate H | discriminate H | exact (IH H)].
Qed.

(** X1. Imported under any name other than "__main__" with Pillow
    installed, the module runs no part of [main]: it completes with no I/O
    and no image. *)
Theorem import_as_module_runs_nothing name w st :
  name <> "__main__" -> w_import_pil w = None ->
  module_exec name w st = (Ok tt, st).
Proof.
  intros Hn Hi. unfold module_exec.
  erewrite bind_Ok.
  2:{ unfold try_except. by rewrite import_run_ok. }
  unfold bind, get_world. cbv zeta.
  destruct (String.eqb_spec name "__main__"); [contradiction | reflexivity].
Qed.

(** X2. The import guard runs whatever the module's name: imported without
    Pillow, the module still prints the install hint and raises
    [SystemExit 1] into the importer. *)
Theorem import_without_pillow_exits name w st e :
  w_import_pil w = Some e -> is_ImportError e = true ->
  module_exec name w st =
    (Exc (SystemExit 1),
     {| st_heap := st_heap st; st_next := st_next st;
        st_trace := st_trace st ++ [EStderr "Install Pillow: pip install Pillow"] |}).
Proof.
  intros Hi He. unfold module_exec. erewrite bind_Exc; [reflexivity|].
  unfold try_except. rewrite (import_run_exc w st e Hi), He. reflexivity.
Qed.

(** X3. A run completes normally exactly when the import, the mkdir of
    OUT_DIR and the saves of all seven icons succeed. *)
Theorem run_ok_iff_succeeds w st :
  fst (run w st) = Ok tt <-> succeeds w.
Proof.
  split.
  - intros H.
    destruct (run_cases w st) as
      [(e & _ & _ & E) | [(e & _ & _ & E) | [(e & _ & _ & E) | [[Hw _] |
        (pre & s & post & e & st' & _ & _ & _ & _ & _ & E & _)]]]];
      rewrite ?E in H; simpl in H; try discriminate H; exact Hw.
  - intros Hw. exact (proj1 (run_success_writes w st Hw)).
Qed.

(** X4. Under the interpreter, a run writes to stderr exactly when it
    ends in an uncaught exception other than [SystemExit] (the traceback),
    or in the [SystemExit 1] of the Pillow guard (the install hint); a run
    that completes writes nothing to stderr. *)
Theorem stderr_iff_failure_reported w st :
  (exists l, In (EStderr l) (new_events st (snd (python_main w st)))) <->
  match fst (python_main w st) with
  | Ok _ => False
  | Exc (SystemExit _) => exists e, w_import_pil w = Some e /\ is_ImportError e = true
  | Exc _ => True
  end.
Proof.
  unfold python_main. change (script w st) with (run w st).
  assert (Htb : forall st' tr, st_trace st' = st_trace st ++ tr ->
            exists l, In (EStderr l) (new_events st
              {| st_heap := st_heap st'; st_next := st_next st';
                 st_trace := st_trace st' ++ [EStderr "Traceback (most recent call last):"] |})).
  { intros st' tr T. unfold new_events. simpl. rewrite T, <- app_assoc, drop_app_length.
    eexists. apply in_or_app. right. left. reflexivity. }
  destruct (run_cases w st) as
    [(e & Hi & He & E) | [(e & Hi & He & E) | [(e & Hi & Hm & E) | [[Hw (h' & E)] |
      (pre & s & post & e & st' & Hi & Hm & Hsz & Hpre & Hs & E & T)]]]];
    rewrite E.
  - cbn [fst snd]. rewrite new_events_app. split; [eauto|].
    intros _. eexists. left. reflexivity.
  - destruct e; cbn [fst snd]; simpl in He; try discriminate He;
      try (split; [intros _; exact I | intros _; apply (Htb st []); by rewrite app_nil_r]).
    rewrite new_events_refl. split; [intros (l & [])|]. intros (e' & Hi' & He').
    rewrite Hi in Hi'. injection Hi' as <-. discriminate He'.
  - destruct e; cbn [fst snd]; try (split; [intros _; exact I | intros _;
      apply (Htb st []); by rewrite app_nil_r]).
    rewrite new_events_refl. split; [intros (l & [])|]. intros (e' & Hi' & _). congruence.
  - cbn [fst snd]. rewrite new_events_app. split; [|intros []].
    intros (l & [H|H]); [discriminate H|].
    apply in_app_or in H as [H|[H|[]]]; [by apply loop_trace_no_stderr in H | discriminate H].
  - destruct e; cbn [fst snd]; try (split; [intros _; exact I | intros _; exact (Htb st' _ T)]).
    unfold new_events. rewrite T, drop_app_length. split.
    + intros (l & [H|H]); [discriminate H | by apply loop_trace_no_stderr in H].
    + intros (e' & Hi' & _). congruence.
Qed.

(** X5. In every world, each stdout line "Wrote n" of a run comes right
    after the write of OUT_DIR/n: the script never reports a file it has not
    written. *)
Theorem wrote_lines_follow_writes w st :
  reports_follow_writes (OUT_DIR_of (w_file w)) (new_events st (snd (run w st))).
Proof.
  destruct (run_cases w st) as
    [(e & _ & _ & E) | [(e & _ & _ & E) | [(e & _ & _ & E) | [[_ (h' & E)] |
      (pre & s & post & e & st' & _ & _ & _ & _ & _ & E & T)]]]];
    rewrite E; cbn [snd].
  - rewrite new_events_app. apply reports_cons_other; [discriminate | apply reports_nil].
  - rewrite new_events_refl. apply reports_nil.
  - rewrite new_events_refl. apply reports_nil.
  - rewrite new_events_app. apply reports_cons_other; [discriminate|].
    apply loop_trace_reports. intros n [H|[]]. discriminate H.
  - unfold new_events. rewrite T, drop_app_length.
    apply reports_cons_other; [discriminate|].
    rewrite <- (app_nil_r (loop_trace _ _ pre)).
    apply loop_trace_reports. intros n [].
Qed.

(** X6. When the save of a size fails after the earlier ones succeeded, the
    run raises that error, and the icons of the earlier sizes stay written
    while no later size is attempted. *)
Theorem save_failure_keeps_earlier_icons w st pre s post e :
  w_import_pil w = None -> w_mkdir w (OUT_DIR_of (w_file w)) = None ->
  SIZES = pre ++ s :: post ->
  Forall (fun s => w_save w (OUT_DIR_of (w_file w) ++ [icon_name s]) = None) pre ->
  w_save w (OUT_DIR_of (w_file w) ++ [icon_name s]) = Some e ->
  fst (run w st) = Exc e /\
  written_paths (new_events st (snd (run w st))) =
    map (fun s => OUT_DIR_of (w_file w) ++ [icon_name s]) pre.
Proof.
  intros Hi Hm Hsz Hpre Hs.
  destruct (run_save_fail w st pre s post e Hi Hm Hsz Hpre Hs) as [st' [E T]].
  rewrite E. split; [reflexivity|]. cbn [snd].
  unfold new_events. rewrite T, drop_app_length, written_paths_writes.
  change (writes (EMkdir (OUT_DIR_of (w_file w)) true true ::
                  loop_trace (OUT_DIR_of (w_file w)) (draw_icon_canvas MASTER_SIZE) pre))
    with (writes (loop_trace (OUT_DIR_of (w_file w)) (draw_icon_canvas MASTER_SIZE) pre)).
  rewrite writes_loop_trace, map_map. reflexivity.
Qed.

(** X7. Every exception a run ends with comes from the world: the
    [SystemExit 1] of the import guard, a non-[ImportError] of the import,
    or the failure of the mkdir or of a save.  The script raises no error of
    its own (no image object is used after being dropped). *)
Theorem exceptions_come_from_world w st e :
  fst (run w st) = Exc e ->
  (e = SystemExit 1 /\ exists e', w_import_pil w = Some e' /\ is_ImportError e' = true) \/
  (w_import_pil w = Some e /\ is_ImportError e = false) \/
  w_mkdir w (OUT_DIR_of (w_file w)) = Some e \/
  (exists s, In s SIZES /\ w_save w (OUT_DIR_of (w_file w) ++ [icon_name s]) = Some e).
Proof.
  intros H.
  destruct (run_cases w st) as
    [(e' & Hi & He & E) | [(e' & Hi & He & E) | [(e' & Hi & Hm & E) | [[_ (h' & E)] |
      (pre & s & post & e' & st' & Hi & Hm & Hsz & Hpre & Hs & E & T)]]]];
    rewrite E in H; simpl in H; try discriminate H; injection H as <-.
  - left. eauto.
  - right; left. auto.
  - do 2 right; left. exact Hm.
  - do 3 right. exists s. split; [rewrite Hsz; apply in_or_app; right; by left | exact Hs].
Qed.

(** X8. The file name depends injectively on the size: two sizes with the
    same icon_{s}.png name are equal. *)
Theorem icon_name_injective a b : icon_name a = icon_name b -> a = b.
Proof.
  unfold icon_name. intros H. injection H as H.
  change (pretty a +:+ ".png" = pretty b +:+ ".png") in H.
  apply string_app_inj_r in H. by apply (inj pretty).
Qed.

(** X9. Run from any checkout as [<repo>/<dir>/<file>], the script writes
    into [<repo>/SunlightTracker/Assets.xcassets/AppIcon.appiconset]. *)
Theorem out_dir_beside_script_dir (repo : path) (dir file : string) :
  OUT_DIR_of (repo ++ [dir; file]) =
    repo ++ ["SunlightTracker"; "Assets.xcassets"; "AppIcon.appiconset"].
Proof.
  unfold OUT_DIR_of, parent.
  replace (repo ++ [dir; file]) with ((repo ++ [dir]) ++ [file]) by by rewrite <- app_assoc.
  by rewrite !removelast_last.
Qed.



End Extras.

Lemma import_as_module_runs_nothing_witness :
  "generate_app_icon" <> "__main__" /\ w_import_pil world_ok = None /\
  module_exec (FO := symbolic_floats) "generate_app_icon" world_ok state0 = (Ok tt, state0).
Proof.
  split; [discriminate|]. split; [reflexivity|].
  apply import_as_module_runs_nothing; [discriminate | reflexivity].
Defined.

Lemma import_without_pillow_exits_witness :
  w_import_pil world_no_pil = Some (ModuleNotFoundError "PIL") /\
  is_ImportError (ModuleNotFoundError "PIL") = true /\
  module_exec (FO := symbolic_floats) "generate_app_icon" world_no_pil state0 =
    (Exc (SystemExit 1),
     {| st_heap := ∅; st_next := 0; st_trace := [EStderr "Install Pillow: pip install Pillow"] |}).
Proof.
  split; [reflexivity|]. split; [reflexivity|].
  apply (import_without_pillow_exits "generate_app_icon" world_no_pil state0
           (ModuleNotFoundError "PIL")); reflexivity.
Defined.

Lemma save_failure_keeps_earlier_icons_witness :
  fst (run (FO := symbolic_floats) world_disk_full state0) =
    Exc (OSError 28 (OUT_DIR_of repo_file ++ ["icon_64.png"])) /\
  written_paths (new_events state0 (snd (run (FO := symbolic_floats) world_disk_full state0))) =
    [OUT_DIR_of repo_file ++ [icon_name 16]; OUT_DIR_of repo_file ++ [icon_name 32]].
Proof.
  apply (save_failure_keeps_earlier_icons world_disk_full state0 [16; 32] 64
           [128; 256; 512; 1024]); [reflexivity | reflexivity | reflexivity | | vm_compute; reflexivity].
  repeat constructor.
Defined.

Lemma exceptions_come_from_world_witness :
  fst (run (FO := symbolic_floats) world_disk_full state0) =
    Exc (OSError 28 (OUT_DIR_of repo_file ++ ["icon_64.png"])) /\
  exists s, In s SIZES /\
    w_save world_disk_full (OUT_DIR_of repo_file ++ [icon_name s]) =
      Some (OSError 28 (OUT_DIR_of repo_file ++ ["icon_64.png"])).
Proof.
  assert (H : fst (run (FO := symbolic_floats) world_disk_full state0) =
                Exc (OSError 28 (OUT_DIR_of repo_file ++ ["icon_64.png"])))
    by (vm_compute; reflexivity).
  split; [exact H|].
  destruct (exceptions_come_from_world world_disk_full state0 _ H)
    as [[E _] | [[E _] | [E | E]]]; [discriminate E | discriminate E | discriminate E | exact E].
Defined.

Lemma icon_name_injective_witness : icon_name 64 = icon_name 64 /\ (64 = 64)%Z.
Proof. split; [reflexivity | apply icon_name_injective; reflexivity]. Defined.





